(** * gdb/common/function-view.h

    A shallow embedding of [gdb::function_view], the non-owning,
    type-erasing reference to a callable, and of the trait helpers the
    class uses to decide which callables it accepts.

    Layout of the development:
    - [traits]: the compile-time predicates [Not], [Or] and
      [CompatibleReturnType];
    - the run-time model: memory, the [erased_callable] union, the
      class [function_view] with its constructors, [bind] overloads and
      operators;
    - the client callables of the usage scenarios and sample views;
    - the conditions of the converting constructor, and views kept as
      objects in the memory their callables act on;
    - the properties. *)

From Stdlib Require Import ZArith Lia List.
From stdpp Require Import base option gmap.

Local Open Scope Z_scope.

(** ** namespace traits *)

Module traits.

(** A class template with a static member [value], such as
    [std::integral_constant<bool, b>].  Naming such a type does not
    instantiate [value]; asking for [B::value] does, and for a
    user-supplied predicate the instantiation may be ill-formed, which
    is [None] here. *)
Record trait := { value : option bool }.

Definition integral_constant (b : bool) : trait := {| value := Some b |}.
Definition true_type : trait := integral_constant true.
Definition false_type : trait := integral_constant false.

(** [std::conditional<c, T, F>::type] *)
Definition conditional {A : Type} (c : bool) (T F : A) : A :=
  if c then T else F.

(** The result of a template whose instantiation is ill-formed. *)
Definition ill_formed : trait := {| value := None |}.

(** [struct Not : std::integral_constant<bool, !Predicate::value>] *)
Definition Not (Predicate : trait) : trait :=
  match value Predicate with
  | Some b => integral_constant (negb b)
  | None => ill_formed
  end.

(** [struct Or], by its four specialisations.  The base class is
    [std::conditional<B1::value, B1, ...>::type]: [B1::value] is
    instantiated, the other alternative is only named. *)
Fixpoint Or (Bs : list trait) : trait :=
  match Bs with
  | [] => false_type
  | [B1] => B1
  | [B1; B2] =>
      match value B1 with
      | Some c => conditional c B1 B2
      | None => ill_formed
      end
  | B1 :: (_ :: _ :: _) as Bn =>
      match value B1 with
      | Some c => conditional c B1 (Or Bn)
      | None => ill_formed
      end
  end.

End traits.

(** ** The compatibility rule of [function_view<Res (Args...)>] *)

Section Compatibility.

Import traits.

(** The C++ types the predicates range over, and the three standard
    type traits the header takes from [<type_traits>]. *)
Variable type : Type.
Variable is_void : type -> trait.
Variable is_same : type -> type -> trait.
Variable is_convertible : type -> type -> trait.

(** [using CompatibleReturnType = traits::Or<std::is_void<To>,
    std::is_same<From, To>, std::is_convertible<From, To>>] *)
Definition CompatibleReturnType (From To : type) : trait :=
  Or [is_void To; is_same From To; is_convertible From To].

(** The callable types offered to the constructor, with
    [std::result_of<Callable &(Args...)>::type]: [None] when the
    callable cannot be called with [Args], in which case the default
    template argument [Res2] fails to substitute. *)
Variable callable_type : Type.
Variable result_of : callable_type -> option type.

(** [struct IsCompatibleCallable : CompatibleReturnType<Res2, Res>];
    [None] is the substitution failure that removes the converting
    constructor from the overload set. *)
Definition IsCompatibleCallable (Res : type) (Callable : callable_type)
    : option trait :=
  match result_of Callable with
  | Some Res2 => Some (CompatibleReturnType Res2 Res)
  | None => None
  end.

(** The rule in the words of its description: a disjunction that
    looks at its second operand only when the first is false. *)
Definition or_else (a b : option bool) : option bool :=
  match a with
  | Some true => Some true
  | Some false => b
  | None => None
  end.

Definition compatible_by_rule (From To : type) : option bool :=
  or_else (value (is_void To))
    (or_else (value (is_same From To)) (value (is_convertible From To))).

End Compatibility.

(** A few C++ types with the answers of [<type_traits>] for them, to
    evaluate the rule on. *)
Module std.

Import traits.

Inductive type : Type := void | bool_t | int_t | char_ptr.

Definition type_eqb (a b : type) : bool :=
  match a, b with
  | void, void | bool_t, bool_t | int_t, int_t | char_ptr, char_ptr => true
  | _, _ => false
  end.

Definition is_void (T : type) : trait :=
  integral_constant (type_eqb T void).

Definition is_same (T U : type) : trait :=
  integral_constant (type_eqb T U).

(** [void] converts to [void] only; [bool] and [int] convert to each
    other; a pointer converts to itself and to [bool]. *)
Definition is_convertible (From To : type) : trait :=
  integral_constant
    match From, To with
    | void, void => true
    | (bool_t | int_t), (bool_t | int_t) => true
    | char_ptr, (char_ptr | bool_t) => true
    | _, _ => false
    end.

End std.

(** ** Memory and the erased callable *)

(** An object address ([void *]); [0] is [nullptr]. *)
Abbreviation ptr := N.

(** A code address ([void ( * ) ()]); [0] is [nullptr]. *)
Abbreviation fn_ptr := N.

Definition nullptr : N := 0%N.

(** Memory: the words stored at object addresses.  [int] objects hold a
    value between [INT_MIN] and [INT_MAX], pointer objects an address. *)
Abbreviation Mem := (gmap N Z).

Definition INT_MAX : Z := 2147483647.

(** A call either has undefined behaviour ([None]) or returns a result
    and the memory it leaves. *)
Definition outcome (R : Type) : Type := option (R * Mem).

(** [v <- e; k v]: run [e], then [k] on its result and memory. *)
Definition and_then {A B : Type} (e : outcome A) (k : A -> Mem -> outcome B)
    : outcome B :=
  match e with
  | Some (a, m) => k a m
  | None => None
  end.

Module fv_detail.

(** [union erased_callable { void *data; void ( *fn ) (); }].  The
    constructor records which member was written last; reading the
    other one is undefined. *)
Inductive erased_callable : Type :=
| of_data (data : ptr)
| of_fn (fn : fn_ptr).

Definition data (ecall : erased_callable) : option ptr :=
  match ecall with
  | of_data p => Some p
  | of_fn _ => None
  end.

Definition fn (ecall : erased_callable) : option fn_ptr :=
  match ecall with
  | of_fn f => Some f
  | of_data _ => None
  end.

(** [erased_callable {}]: the first member, zero-initialised. *)
Definition value_initialized : erased_callable := of_data nullptr.

End fv_detail.

(** ** class function_view<Res (Args...)> *)

Section FunctionView.

Import fv_detail.

(** The declared signature; [Args] is the tuple of the parameters and
    [Res] is [unit] for [void]. *)
Variables Res Args : Type.

(** [Res ( * ) (fv_detail::erased_callable, Args...)] *)
Definition invoker : Type := erased_callable -> Args -> Mem -> outcome Res.

Record function_view : Type := {
  m_erased_callable : erased_callable;
  m_invoker : option invoker   (* [None] is [nullptr] *)
}.

Definition set_erased_callable (e : erased_callable) (this : function_view)
    : function_view :=
  {| m_erased_callable := e; m_invoker := m_invoker this |}.

Definition set_invoker (i : option invoker) (this : function_view)
    : function_view :=
  {| m_erased_callable := m_erased_callable this; m_invoker := i |}.

(** A class type [Callable] that can be called with [Args]: the type
    its call yields, its call operator run on the object at [this],
    and the conversion the cast [(Res)] performs on the result (it
    discards the result when [Res] is [void]). *)
Record Callable : Type := {
  result_type : Type;
  call : ptr -> Args -> Mem -> outcome result_type;
  cast_Res : result_type -> Res
}.

(** A function type [Res2 (Args2...)]: the conversions that passing
    [Args] to it and casting its result to [Res] perform, and the
    functions of that type in the program, by code address. *)
Record Function : Type := {
  Res2 : Type;
  Args2 : Type;
  forward : Args -> Args2;
  cast_Res2 : Res2 -> Res;
  text : fn_ptr -> option (Args2 -> Mem -> outcome Res2)
}.

(** [fn (args...)] for [fn] of type [Res2 ( * ) (Args2...)]: calling
    through a null pointer, or one that is not a function of this
    type, is undefined. *)
Definition call_through (F : Function) (fn : fn_ptr) (args : Args2 F)
    (m : Mem) : outcome (Res2 F) :=
  if N.eqb fn nullptr then None
  else match text F fn with
       | Some f => f args m
       | None => None
       end.

(** [constexpr function_view () noexcept] *)
Definition function_view_default : function_view :=
  {| m_erased_callable := value_initialized; m_invoker := None |}.

(** [constexpr function_view (std::nullptr_t) noexcept] *)
Definition function_view_nullptr : function_view :=
  {| m_erased_callable := value_initialized; m_invoker := None |}.

(** [function_view (const function_view &) = default] *)
Definition function_view_copy (other : function_view) : function_view :=
  {| m_erased_callable := m_erased_callable other;
     m_invoker := m_invoker other |}.

(** [function_view &operator= (const function_view &) = default] *)
Definition assign_copy (other this : function_view) : function_view :=
  set_invoker (m_invoker other)
    (set_erased_callable (m_erased_callable other) this).

(** The lambda of [bind (Callable &callable)]. *)
Definition invoke_object (C : Callable) : invoker :=
  fun ecall args m =>
    match data ecall with
    | Some p =>
        (* restored_callable = *static_cast<Callable *> (ecall.data) *)
        and_then (call C p args m) (fun r m' => Some (cast_Res C r, m'))
    | None => None
    end.

(** [template <typename Callable> void bind (Callable &callable)] *)
Definition bind_object (C : Callable) (callable : ptr)
    (this : function_view) : function_view :=
  set_invoker (Some (invoke_object C))
    (set_erased_callable (of_data callable) this).

(** The lambda of [bind (Res2 ( *fn ) (Args2...))]. *)
Definition invoke_function (F : Function) : invoker :=
  fun ecall args m =>
    match fn ecall with
    | Some restored_fn =>
        and_then (call_through F restored_fn (forward F args) m)
          (fun r m' => Some (cast_Res2 F r, m'))
    | None => None
    end.

(** [template<class Res2, typename... Args2>
    void bind (Res2 ( *fn ) (Args2...))] *)
Definition bind_function (F : Function) (fn : fn_ptr)
    (this : function_view) : function_view :=
  set_invoker (Some (invoke_function F))
    (set_erased_callable (of_fn fn) this).

(** What the converting constructor is given: an lvalue of a class
    type, by its address, or a function pointer. *)
Inductive callable_ref : Type :=
| function_object (C : Callable) (callable : ptr)
| function_pointer (F : Function) (fn : fn_ptr).

(** Overload resolution between the two [bind]s. *)
Definition bind (callable : callable_ref) (this : function_view)
    : function_view :=
  match callable with
  | function_object C p => bind_object C p this
  | function_pointer F fn => bind_function F fn this
  end.

(** [function_view (Callable &&callable) noexcept { bind (callable); }].
    The constructor has no member initialisers: [bind] runs on members
    of indeterminate value, [uninit]. *)
Definition function_view_from (callable : callable_ref)
    (uninit : function_view) : function_view :=
  bind callable uninit.

(** [function_view &operator= (std::nullptr_t) noexcept] *)
Definition assign_nullptr (this : function_view) : function_view :=
  set_invoker None this.

(** [constexpr explicit operator bool () const noexcept] *)
Definition operator_bool (this : function_view) : bool :=
  match m_invoker this with
  | Some _ => true
  | None => false
  end.

(** [Res operator () (Args... args) const]; the call through a null
    [m_invoker] is undefined. *)
Definition operator_call (this : function_view) (args : Args) (m : Mem)
    : outcome Res :=
  match m_invoker this with
  | Some f => f (m_erased_callable this) args m
  | None => None
  end.

(** [operator== (const function_view &f, std::nullptr_t)] *)
Definition eq_nullptr (f : function_view) : bool := negb (operator_bool f).

(** [operator== (std::nullptr_t, const function_view &f)] *)
Definition nullptr_eq (f : function_view) : bool := negb (operator_bool f).

(** [operator!= (const function_view &f, std::nullptr_t)] *)
Definition ne_nullptr (f : function_view) : bool := operator_bool f.

(** [operator!= (std::nullptr_t, const function_view &f)] *)
Definition nullptr_ne (f : function_view) : bool := operator_bool f.

(** The members that run on an existing view [v]. *)
Inductive operation : Type :=
| op_call (args : Args)                   (* v (args...) *)
| op_assign_nullptr                       (* v = nullptr *)
| op_assign_copy (other : function_view)  (* v = other *).

(** One member call on the view [v] in memory [m]: the view and the
    memory afterwards, and the result when the member is the call
    operator.  The call operator is [const] and hands the invoker a
    copy of [m_erased_callable]: it assigns to no member. *)
Definition perform (o : operation) (v : function_view) (m : Mem)
    : option (function_view * Mem * option Res) :=
  match o with
  | op_call args =>
      match operator_call v args m with
      | Some (r, m') => Some (v, m', Some r)
      | None => None
      end
  | op_assign_nullptr => Some (assign_nullptr v, m, None)
  | op_assign_copy other => Some (assign_copy other v, m, None)
  end.

Definition is_call (o : operation) : bool :=
  match o with
  | op_call _ => true
  | _ => false
  end.

(** A sequence of member calls on the same view variable. *)
Fixpoint perform_all (os : list operation) (v : function_view) (m : Mem)
    : option (function_view * Mem) :=
  match os with
  | [] => Some (v, m)
  | o :: os' =>
      match perform o v m with
      | Some (v', m', _) => perform_all os' v' m'
      | None => None
      end
  end.

(** A caller that invokes its callback once per element, as
    [iterate_over_foos] in the header's usage notes does; it collects
    the results. *)
Fixpoint call_each (callback : function_view) (l : list Args) (m : Mem)
    : outcome (list Res) :=
  match l with
  | [] => Some ([], m)
  | args :: l' =>
      and_then (operator_call callback args m) (fun r m1 =>
      and_then (call_each callback l' m1) (fun rs m2 =>
      Some (r :: rs, m2)))
  end.

(** The call [callable (args...)] made directly, its result converted
    to [Res]. *)
Definition direct_call (callable : callable_ref) (args : Args) (m : Mem)
    : outcome Res :=
  match callable with
  | function_object C p =>
      and_then (call C p args m) (fun r m' => Some (cast_Res C r, m'))
  | function_pointer F fn =>
      and_then (call_through F fn (forward F args) m)
        (fun r m' => Some (cast_Res2 F r, m'))
  end.

Fixpoint direct_each (callable : callable_ref) (l : list Args) (m : Mem)
    : outcome (list Res) :=
  match l with
  | [] => Some ([], m)
  | args :: l' =>
      and_then (direct_call callable args m) (fun r m1 =>
      and_then (direct_each callable l' m1) (fun rs m2 =>
      Some (r :: rs, m2)))
  end.

(** A function type equal to the declared signature [Res (Args...)]:
    arguments and result pass unchanged. *)
Definition same_signature
    (functions : fn_ptr -> option (Args -> Mem -> outcome Res))
    : Function :=
  {| Res2 := Res; Args2 := Args; forward := fun args => args;
     cast_Res2 := fun r => r; text := functions |}.

(** A class whose call yields [Res] itself. *)
Definition same_result (operator : ptr -> Args -> Mem -> outcome Res)
    : Callable :=
  {| result_type := Res; call := operator; cast_Res := fun r => r |}.

End FunctionView.

Arguments m_erased_callable {Res Args} _.
Arguments m_invoker {Res Args} _.
Arguments function_view_default {Res Args}.
Arguments function_view_nullptr {Res Args}.
Arguments function_view_copy {Res Args} _.
Arguments assign_copy {Res Args} _ _.
Arguments assign_nullptr {Res Args} _.
Arguments set_invoker {Res Args} _ _.
Arguments set_erased_callable {Res Args} _ _.
Arguments invoke_object {Res Args} _.
Arguments invoke_function {Res Args} _.
Arguments bind_object {Res Args} _ _ _.
Arguments bind_function {Res Args} _ _ _.
Arguments function_object {Res Args} _ _.
Arguments function_pointer {Res Args} _ _.
Arguments bind {Res Args} _ _.
Arguments function_view_from {Res Args} _ _.
Arguments operator_bool {Res Args} _.
Arguments operator_call {Res Args} _ _ _.
Arguments eq_nullptr {Res Args} _.
Arguments nullptr_eq {Res Args} _.
Arguments ne_nullptr {Res Args} _.
Arguments nullptr_ne {Res Args} _.
Arguments op_call {Res Args} _.
Arguments op_assign_nullptr {Res Args}.
Arguments op_assign_copy {Res Args} _.
Arguments perform {Res Args} _ _ _.
Arguments is_call {Res Args} _.
Arguments perform_all {Res Args} _ _ _.
Arguments call_each {Res Args} _ _ _.
Arguments direct_call {Res Args} _ _ _.
Arguments direct_each {Res Args} _ _ _.
Arguments call_through {Res Args} _ _ _ _.
Arguments same_signature {Res Args} _.
Arguments same_result {Res Args} _.
Arguments result_type {Res Args} _.
Arguments call {Res Args} _ _ _ _.
Arguments cast_Res {Res Args} _ _.
Arguments Res2 {Res Args} _.
Arguments Args2 {Res Args} _.
Arguments forward {Res Args} _ _.
Arguments cast_Res2 {Res Args} _ _.
Arguments text {Res Args} _ _.

(** ** Client callables of the usage scenarios *)

Module scenarios.

(** [int t = 5; auto above = [t] (int x) { return x > t; };]
    The closure object holds its copy of [t]. *)
Definition above_operator (this : ptr) (x : Z) (m : Mem) : outcome bool :=
  match m !! this with
  | Some t => Some (Z.gtb x t, m)
  | None => None
  end.

Definition above : Callable bool Z := same_result above_operator.

(** [struct bump { int *counter; void operator() () { ++*counter; } };]
    The increment of [INT_MAX] overflows, which is undefined. *)
Definition bump_operator (this : ptr) (_ : unit) (m : Mem) : outcome unit :=
  match m !! this with
  | Some counter =>
      match m !! Z.to_N counter with
      | Some n =>
          if Z.ltb n INT_MAX
          then Some (tt, <[Z.to_N counter := n + 1]> m)
          else None
      | None => None
      end
  | None => None
  end.

Definition bump : Callable unit unit := same_result bump_operator.

(** [struct tally { int total; int operator() (int x)
    { total += x; return total; } };]  The sum must fit an [int]. *)
Definition tally_operator (this : ptr) (x : Z) (m : Mem) : outcome Z :=
  match m !! this with
  | Some total =>
      if Z.leb (- INT_MAX - 1) (total + x) && Z.leb (total + x) INT_MAX
      then Some (total + x, <[this := total + x]> m)
      else None
  | None => None
  end.

Definition tally : Callable Z Z := same_result tally_operator.

(** [bool is_even (int x) { return x % 2 == 0; }] at code address 64. *)
Definition is_even (x : Z) (m : Mem) : outcome bool :=
  Some (Z.eqb (Z.rem x 2) 0, m).

Definition functions (a : fn_ptr) : option (Z -> Mem -> outcome bool) :=
  if N.eqb a 64 then Some is_even else None.

End scenarios.

(** ** Sample views and memories *)

Module samples.

Import fv_detail.

(** A [function_view<void ()>] bound to a [bump] object at address 16
    whose [counter] member points to address 32. *)
Definition bump_view : function_view unit unit :=
  function_view_from (function_object scenarios.bump 16%N)
    function_view_default.

Definition bump_memory : Mem := <[16%N := 32]> {[32%N := 0]}.

(** A [function_view<bool (int)>] bound to the closure [above] at
    address 16. *)
Definition above_view : function_view bool Z :=
  function_view_from (function_object scenarios.above 16%N)
    function_view_default.

Definition above_memory : Mem := {[16%N := 5]}.

(** A [function_view<int (int)>] bound to a [tally] at address 16. *)
Definition tally_view : function_view Z Z :=
  function_view_from (function_object scenarios.tally 16%N)
    function_view_default.

Definition tally_memory : Mem := {[16%N := 0]}.

(** A [function_view<bool (int)>] bound to [is_even]. *)
Definition is_even_view : function_view bool Z :=
  function_view_from
    (function_pointer (same_signature scenarios.functions) 64%N)
    function_view_default.

End samples.

(** ** Which callables the converting constructor takes *)

Section Acceptance.

Import traits.

(** The types, the standard traits, [std::decay<T>::type] and
    [std::result_of<Callable &(Args...)>::type] for the [Args] of the
    view at hand. *)
Variable type : Type.
Variable is_void : type -> trait.
Variable is_same : type -> type -> trait.
Variable is_convertible : type -> type -> trait.
Variable decay : type -> type.
Variable result_of : type -> option type.

(** The class [function_view<Res (Args...)>] itself, and its [Res]. *)
Variable Self : type.
Variable Res : type.

(** [struct IsFunctionView
      : std::is_same<function_view, typename std::decay<Callable>::type>] *)
Definition IsFunctionView (Callable : type) : trait :=
  is_same Self (decay Callable).

(** What substituting the template arguments of a constructor template
    gives: a candidate, no candidate, or an ill-formed program. *)
Inductive substitution : Type := viable | removed | ill_formed_program.

(** [using Requires
      = typename std::enable_if<Condition::value, void>::type]:
    there is no member [type] when the condition is false. *)
Definition Requires (Condition : trait) : substitution :=
  match value Condition with
  | Some true => viable
  | Some false => removed
  | None => ill_formed_program
  end.

(** [template <typename Callable,
       typename = Requires<traits::Not<IsFunctionView<Callable>>>,
       typename = Requires<IsCompatibleCallable<Callable>>>
     function_view (Callable &&callable)]:
    the default arguments are substituted in order, up to the first
    that fails. *)
Definition converting_constructor (Callable : type) : substitution :=
  match Requires (Not (IsFunctionView Callable)) with
  | viable =>
      match IsCompatibleCallable type is_void is_same is_convertible
              type result_of Res Callable with
      | Some Condition => Requires Condition
      | None => removed
      end
  | removed => removed
  | ill_formed_program => ill_formed_program
  end.

End Acceptance.

(** Types offered to a [function_view<bool (int)>], with the answers of
    the standard traits for them. *)
Module offers.

Import traits.

Inductive type : Type :=
| void | bool_t | int_t
| record                      (* a class without conversions *)
| view                        (* function_view<bool (int)> *)
| view_cref                   (* const function_view<bool (int)> & *)
| closure (result : type)     (* a closure type: called with an int, yields [result] *)
| plain_struct.               (* a class type without a call operator *)

Fixpoint type_eqb (a b : type) : bool :=
  match a, b with
  | void, void | bool_t, bool_t | int_t, int_t | record, record
  | view, view | view_cref, view_cref | plain_struct, plain_struct => true
  | closure r, closure r' => type_eqb r r'
  | _, _ => false
  end.

Definition is_void (T : type) : trait := integral_constant (type_eqb T void).

Definition is_same (T U : type) : trait := integral_constant (type_eqb T U).

(** [bool] and [int] convert to each other; every other type converts
    to itself only. *)
Definition is_convertible (From To : type) : trait :=
  integral_constant
    match From, To with
    | (bool_t | int_t), (bool_t | int_t) => true
    | _, _ => type_eqb From To
    end.

(** References and cv-qualifiers are dropped. *)
Definition decay (T : type) : type :=
  match T with
  | view_cref => view
  | _ => T
  end.

(** The result of a call with an [int]; a [function_view<bool (int)>]
    can itself be called with one. *)
Definition result_of (T : type) : option type :=
  match T with
  | closure r => Some r
  | view | view_cref => Some bool_t
  | _ => None
  end.

(** The converting constructor of [function_view<bool (int)>]. *)
Definition constructor (Callable : type) : substitution :=
  converting_constructor type is_void is_same is_convertible decay result_of
    view bool_t Callable.

End offers.

(** ** Views whose members belong together *)

(** The payload of a non-empty view was written by the [bind] that
    installed its invoker. *)
Inductive well_paired {Res Args : Type} : function_view Res Args -> Prop :=
| paired_empty (e : fv_detail.erased_callable) :
    well_paired {| m_erased_callable := e; m_invoker := None |}
| paired_bound (c : callable_ref Res Args) (this : function_view Res Args) :
    well_paired (bind c this).

(** An operation that brings in no view other than a well paired one. *)
Definition from_well_paired {Res Args : Type} (o : operation Res Args) : Prop :=
  match o with
  | op_assign_copy other => well_paired other
  | _ => True
  end.

(** ** A function whose type differs from the declared signature *)

Module conversions.

(** [int sign (long x)] at code address 96, offered to a view declared
    [bool (int)]: the [int] argument widens and the [int] result
    converts to [bool]. *)
Definition sign (x : Z) (m : Mem) : outcome Z := Some (Z.sgn x, m).

Definition int_of_long : Function bool Z :=
  {| Res2 := Z; Args2 := Z;
     forward := fun x => x;
     cast_Res2 := fun r => negb (Z.eqb r 0);
     text := fun a => if N.eqb a 96 then Some sign else None |}.

Definition sign_view : function_view bool Z :=
  function_view_from (function_pointer int_of_long 96%N)
    function_view_default.

End conversions.

(** ** Views as objects in memory *)

(** A view is itself an object, and the callable it invokes may hold its
    address.  Here the views live in the store the callables act on. *)
Module in_memory.

Import fv_detail.

(** The members of a view object; [m_invoker] holds a code address,
    [0] for [nullptr]. *)
Record members : Type := {
  erased_callable_at : erased_callable;
  invoker_at : fn_ptr
}.

(** The words of the ordinary objects and the view objects, by
    address. *)
Record Store : Type := {
  words : Mem;
  views : gmap N members
}.

Definition result (R : Type) : Type := option (R * Store).

Definition write_view (this : ptr) (v : members) (s : Store) : Store :=
  {| words := words s; views := <[this := v]> (views s) |}.

(** [m_erased_callable = e] on the view at [this]; there must be a view
    object there. *)
Definition set_erased_callable_at (e : erased_callable) (this : ptr)
    (s : Store) : option Store :=
  match views s !! this with
  | Some v =>
      Some (write_view this
              {| erased_callable_at := e; invoker_at := invoker_at v |} s)
  | None => None
  end.

(** [m_invoker = i] on the view at [this]. *)
Definition set_invoker_at (i : fn_ptr) (this : ptr) (s : Store)
    : option Store :=
  match views s !! this with
  | Some v =>
      Some (write_view this
              {| erased_callable_at := erased_callable_at v;
                 invoker_at := i |} s)
  | None => None
  end.

(** [function_view &operator= (std::nullptr_t) noexcept] on the view at
    [this]. *)
Definition assign_nullptr_at (this : ptr) (s : Store) : result unit :=
  match set_invoker_at nullptr this s with
  | Some s' => Some (tt, s')
  | None => None
  end.

(** [constexpr explicit operator bool () const noexcept] on the view at
    [this]. *)
Definition operator_bool_at (this : ptr) (s : Store) : option bool :=
  match views s !! this with
  | Some v => Some (negb (N.eqb (invoker_at v) nullptr))
  | None => None
  end.

(** A call made on the words alone leaves every view as it is. *)
Definition on_words {R : Type} (e : outcome R) (s : Store) : result R :=
  match e with
  | Some (r, m') => Some (r, {| words := m'; views := views s |})
  | None => None
  end.

Section Views.

Variables Res Args : Type.

(** The code behind a [Res ( * ) (fv_detail::erased_callable, Args...)]. *)
Definition invoker_code : Type := erased_callable -> Args -> Store -> result Res.

(** A class type that can be called with [Args]: as [Callable] above,
    with a call operator that acts on the store, and the code address
    of the lambda that [bind] instantiates for the class. *)
Record Class : Type := {
  class_result : Type;
  class_call : ptr -> Args -> Store -> result class_result;
  class_cast : class_result -> Res;
  class_lambda : fn_ptr
}.

(** A function type [Res2 (Args2...)]: as [Function] above, with
    functions that act on the store, and the code address of the lambda
    that [bind] instantiates for the type. *)
Record FunctionType : Type := {
  fun_result : Type;
  fun_args : Type;
  fun_forward : Args -> fun_args;
  fun_cast : fun_result -> Res;
  fun_text : fn_ptr -> option (fun_args -> Store -> result fun_result);
  fun_lambda : fn_ptr
}.

Definition call_through_at (F : FunctionType) (fn : fn_ptr)
    (args : fun_args F) (s : Store) : result (fun_result F) :=
  if N.eqb fn nullptr then None
  else match fun_text F fn with
       | Some f => f args s
       | None => None
       end.

(** The lambda of [bind (Callable &callable)]. *)
Definition invoke_object_at (C : Class) : invoker_code :=
  fun ecall args s =>
    match data ecall with
    | Some p =>
        match class_call C p args s with
        | Some (r, s') => Some (class_cast C r, s')
        | None => None
        end
    | None => None
    end.

(** The lambda of [bind (Res2 ( *fn ) (Args2...))]. *)
Definition invoke_function_at (F : FunctionType) : invoker_code :=
  fun ecall args s =>
    match fn ecall with
    | Some restored_fn =>
        match call_through_at F restored_fn (fun_forward F args) s with
        | Some (r, s') => Some (fun_cast F r, s')
        | None => None
        end
    | None => None
    end.

Inductive callable : Type :=
| object (C : Class) (address : ptr)
| function (F : FunctionType) (fn : fn_ptr).

(** The two [bind] overloads on the view at [this]: the payload is
    assigned, then the invoker. *)
Definition bind_at (c : callable) (this : ptr) (s : Store) : option Store :=
  match c with
  | object C p =>
      match set_erased_callable_at (of_data p) this s with
      | Some s1 => set_invoker_at (class_lambda C) this s1
      | None => None
      end
  | function F f =>
      match set_erased_callable_at (of_fn f) this s with
      | Some s1 => set_invoker_at (fun_lambda F) this s1
      | None => None
      end
  end.

(** [function_view (Callable &&callable) noexcept { bind (callable); }]
    constructing the view at [this], whose members start with the
    indeterminate value [uninit]. *)
Definition construct_at (c : callable) (this : ptr) (uninit : members)
    (s : Store) : option Store :=
  bind_at c this (write_view this uninit s).

(** The members [bind] leaves for a callable. *)
Definition bound_to (c : callable) : members :=
  match c with
  | object C p =>
      {| erased_callable_at := of_data p; invoker_at := class_lambda C |}
  | function F f =>
      {| erased_callable_at := of_fn f; invoker_at := fun_lambda F |}
  end.

(** The call [callable (args...)] made directly, converted to [Res]. *)
Definition direct_call_at (c : callable) (args : Args) (s : Store)
    : result Res :=
  match c with
  | object C p =>
      match class_call C p args s with
      | Some (r, s') => Some (class_cast C r, s')
      | None => None
      end
  | function F f =>
      match call_through_at F f (fun_forward F args) s with
      | Some (r, s') => Some (fun_cast F r, s')
      | None => None
      end
  end.

(** The invokers of the program, by code address. *)
Variable text : fn_ptr -> option invoker_code.

(** [Res operator () (Args... args) const] on the view at [this]: the
    members are read, then control passes to the invoker with a copy of
    the payload. *)
Definition operator_call_at (this : ptr) (args : Args) (s : Store)
    : result Res :=
  match views s !! this with
  | Some v =>
      if N.eqb (invoker_at v) nullptr then None
      else match text (invoker_at v) with
           | Some f => f (erased_callable_at v) args s
           | None => None
           end
  | None => None
  end.

(** The lambda instantiated for the type of [c] is where its code
    address says. *)
Definition linked (c : callable) : Prop :=
  match c with
  | object C _ =>
      class_lambda C <> nullptr
      /\ text (class_lambda C) = Some (invoke_object_at C)
  | function F _ =>
      fun_lambda F <> nullptr
      /\ text (fun_lambda F) = Some (invoke_function_at F)
  end.

(** The callable, called directly, never writes the view at [this]. *)
Definition leaves_alone (c : callable) (this : ptr) : Prop :=
  forall (args : Args) (s : Store) (r : Res) (s' : Store),
    direct_call_at c args s = Some (r, s') ->
    views s' !! this = views s !! this.

(** The view at [this] invoked once per element of a list. *)
Fixpoint call_each_at (this : ptr) (l : list Args) (s : Store)
    : result (list Res) :=
  match l with
  | [] => Some ([], s)
  | args :: l' =>
      match operator_call_at this args s with
      | Some (r, s1) =>
          match call_each_at this l' s1 with
          | Some (rs, s2) => Some (r :: rs, s2)
          | None => None
          end
      | None => None
      end
  end.

Fixpoint direct_each_at (c : callable) (l : list Args) (s : Store)
    : result (list Res) :=
  match l with
  | [] => Some ([], s)
  | args :: l' =>
      match direct_call_at c args s with
      | Some (r, s1) =>
          match direct_each_at c l' s1 with
          | Some (rs, s2) => Some (r :: rs, s2)
          | None => None
          end
      | None => None
      end
  end.

(** A class of the value-level model, whose call operator acts on the
    words alone. *)
Definition words_only (C : Callable Res Args) (lambda : fn_ptr) : Class :=
  {| class_result := result_type C;
     class_call := fun p args s => on_words (call C p args (words s)) s;
     class_cast := cast_Res C;
     class_lambda := lambda |}.

End Views.

Arguments class_result {Res Args} _.
Arguments class_call {Res Args} _ _ _ _.
Arguments class_cast {Res Args} _ _.
Arguments class_lambda {Res Args} _.
Arguments object {Res Args} _ _.
Arguments function {Res Args} _ _.
Arguments invoke_object_at {Res Args} _.
Arguments invoke_function_at {Res Args} _.
Arguments bind_at {Res Args} _ _ _.
Arguments construct_at {Res Args} _ _ _ _.
Arguments bound_to {Res Args} _.
Arguments direct_call_at {Res Args} _ _ _.
Arguments operator_call_at {Res Args} _ _ _ _.
Arguments linked {Res Args} _ _.
Arguments leaves_alone {Res Args} _ _.
Arguments call_each_at {Res Args} _ _ _ _.
Arguments direct_each_at {Res Args} _ _ _.
Arguments words_only {Res Args} _ _.

(** [struct clear { function_view<void ()> *view;
                    void operator() () { *view = nullptr; } };]
    Its lambda is at code address 64. *)
Definition clear_operator (this : ptr) (_ : unit) (s : Store) : result unit :=
  match words s !! this with
  | Some view => assign_nullptr_at (Z.to_N view) s
  | None => None
  end.

Definition clear : Class unit unit :=
  {| class_result := unit; class_call := clear_operator;
     class_cast := fun r => r; class_lambda := 64%N |}.

Definition clear_text (a : fn_ptr) : option (invoker_code unit unit) :=
  if N.eqb a 64 then Some (invoke_object_at clear) else None.

(** [clear c; function_view<void ()> v (c); c.view = &v;] with [c] at
    address 16 and [v] at address 8. *)
Definition clear_store : Store :=
  {| words := {[16%N := 8]};
     views := {[8%N := bound_to (object clear 16%N)]} |}.

(** The class [bump] of the scenarios, its lambda at code address 64,
    with an object at address 16, its counter at address 32 and a view
    of the object at address 8. *)
Definition bump : Class unit unit := words_only scenarios.bump 64%N.

Definition bump_text (a : fn_ptr) : option (invoker_code unit unit) :=
  if N.eqb a 64 then Some (invoke_object_at bump) else None.

Definition bump_store : Store :=
  {| words := samples.bump_memory;
     views := {[8%N := bound_to (object bump 16%N)]} |}.

End in_memory.

(** ** Properties of the trait helpers *)

Section TraitFacts.

Import traits.

Lemma Or_true_first (B1 : trait) (Bs : list trait) :
  value B1 = Some true -> value (Or (B1 :: Bs)) = Some true.
Proof.
  intros H. destruct Bs as [|B2 [|B3 Bn]]; simpl; rewrite ?H; simpl;
    first [exact H | reflexivity].
Qed.

Lemma Or_false_first (B1 B2 : trait) (Bs : list trait) :
  value B1 = Some false -> value (Or (B1 :: B2 :: Bs)) = value (Or (B2 :: Bs)).
Proof.
  intros H. destruct Bs as [|B3 Bn]; simpl; rewrite H; reflexivity.
Qed.

Lemma Or_ill_formed_first (B1 B2 : trait) (Bs : list trait) :
  value B1 = None -> value (Or (B1 :: B2 :: Bs)) = None.
Proof.
  intros H. destruct Bs as [|B3 Bn]; simpl; rewrite H; reflexivity.
Qed.

Lemma Not_value (b : bool) : value (Not (integral_constant b)) = Some (negb b).
Proof. reflexivity. Qed.

End TraitFacts.

(** C3: [CompatibleReturnType<From, To>] is the short-circuit
    disjunction of [is_void<To>], [is_same<From, To>] and
    [is_convertible<From, To>]: its value is the rule's; when the three
    predicates have values it is their boolean disjunction; and when
    [To] is [void] it is true whatever the other two are, ill-formed
    included. *)
Theorem CompatibleReturnType_is_short_circuit_disjunction
    (type : Type) (is_void : type -> traits.trait)
    (is_same is_convertible : type -> type -> traits.trait)
    (From To : type) :
  traits.value (CompatibleReturnType type is_void is_same is_convertible From To)
    = compatible_by_rule type is_void is_same is_convertible From To
  /\ (forall v s c : bool,
        traits.value (is_void To) = Some v ->
        traits.value (is_same From To) = Some s ->
        traits.value (is_convertible From To) = Some c ->
        traits.value
          (CompatibleReturnType type is_void is_same is_convertible From To)
          = Some (v || s || c))
  /\ (traits.value (is_void To) = Some true ->
      traits.value
        (CompatibleReturnType type is_void is_same is_convertible From To)
        = Some true).
Proof.
  assert (Hrule :
    traits.value
      (CompatibleReturnType type is_void is_same is_convertible From To)
    = compatible_by_rule type is_void is_same is_convertible From To).
  { unfold CompatibleReturnType, compatible_by_rule, or_else.
    destruct (traits.value (is_void To)) as [[|]|] eqn:Hv.
    - apply Or_true_first; exact Hv.
    - rewrite (Or_false_first _ _ _ Hv). simpl.
      destruct (traits.value (is_same From To)) as [[|]|] eqn:Hs;
        simpl; [exact Hs | reflexivity | reflexivity].
    - apply Or_ill_formed_first; exact Hv. }
  split; [exact Hrule|]. split.
  - intros v s c Hv Hs Hc. rewrite Hrule.
    unfold compatible_by_rule, or_else. rewrite Hv, Hs, Hc.
    destruct v, s, c; reflexivity.
  - intros Hv. rewrite Hrule. unfold compatible_by_rule, or_else.
    rewrite Hv. reflexivity.
Qed.

(** An [int] result offered where [bool] is declared is accepted by
    the third disjunct alone; with [void] declared, a result is accepted
    even when the two later predicates cannot be instantiated. *)
Lemma CompatibleReturnType_witness :
  traits.value
    (CompatibleReturnType std.type std.is_void std.is_same std.is_convertible
       std.int_t std.bool_t)
  = Some (false || false || true)
  /\ traits.value
       (CompatibleReturnType std.type std.is_void
          (fun _ _ => traits.ill_formed) (fun _ _ => traits.ill_formed)
          std.char_ptr std.void)
     = Some true.
Proof.
  split.
  - exact (proj1 (proj2 (CompatibleReturnType_is_short_circuit_disjunction
      std.type std.is_void std.is_same std.is_convertible
      std.int_t std.bool_t))
      false false true eq_refl eq_refl eq_refl).
  - exact (proj2 (proj2 (CompatibleReturnType_is_short_circuit_disjunction
      std.type std.is_void
      (fun _ _ => traits.ill_formed) (fun _ _ => traits.ill_formed)
      std.char_ptr std.void))
      eq_refl).
Defined.

(** ** Properties of the class *)

Section ViewFacts.

Import fv_detail.

Context {Res Args : Type}.

Implicit Types (v this other uninit : function_view Res Args).
Implicit Types (c : callable_ref Res Args) (m : Mem) (args : Args).

Lemma and_then_ret {A : Type} (e : outcome A) :
  and_then e (fun r m' => Some (r, m')) = e.
Proof. destruct e as [[r m']|]; reflexivity. Qed.

Lemma and_then_assoc {A B C : Type} (e : outcome A)
    (k : A -> Mem -> outcome B) (h : B -> Mem -> outcome C) :
  and_then (and_then e k) h = and_then e (fun a m => and_then (k a m) h).
Proof. destruct e as [[a m]|]; reflexivity. Qed.

(** Memberwise copy rebuilds the same pair. *)
Lemma function_view_copy_same v : function_view_copy v = v.
Proof. destruct v; reflexivity. Qed.

Lemma assign_copy_same other this : assign_copy other this = other.
Proof. destruct other; reflexivity. Qed.

(** Both [bind] overloads assign both members. *)
Lemma bind_members c this :
  bind c this =
    match c with
    | function_object C p =>
        {| m_erased_callable := of_data p;
           m_invoker := Some (invoke_object C) |}
    | function_pointer F fn =>
        {| m_erased_callable := of_fn fn;
           m_invoker := Some (invoke_function F) |}
    end.
Proof. destruct c; reflexivity. Qed.

Lemma bind_forgets c this this' : bind c this = bind c this'.
Proof. rewrite !bind_members. reflexivity. Qed.

(** The invoker a [bind] installs restores the callable it was given
    and calls it. *)
Lemma operator_call_bind c this args m :
  operator_call (bind c this) args m = direct_call c args m.
Proof. rewrite bind_members. destruct c; reflexivity. Qed.

Lemma operator_call_from c uninit args m :
  operator_call (function_view_from c uninit) args m = direct_call c args m.
Proof. apply operator_call_bind. Qed.

Lemma operator_bool_bind c this : operator_bool (bind c this) = true.
Proof. rewrite bind_members. destruct c; reflexivity. Qed.

Lemma call_each_bind c this (l : list Args) m :
  call_each (bind c this) l m = direct_each c l m.
Proof.
  revert m. induction l as [|args l IH]; intros m; simpl; [reflexivity|].
  rewrite operator_call_bind.
  destruct (direct_call c args m) as [[r m1]|]; simpl; [|reflexivity].
  rewrite IH. reflexivity.
Qed.

End ViewFacts.

(** C1: a view constructed from a free function [f] whose type is the
    declared signature, invoked with [args], returns what [f (args)]
    returns and leaves the memory [f (args)] leaves; where the direct
    call is undefined, so is the call through the view. *)
Theorem view_of_function_is_direct_call
    (Res Args : Type)
    (functions : fn_ptr -> option (Args -> Mem -> outcome Res))
    (fn : fn_ptr) (f : Args -> Mem -> outcome Res)
    (uninit : function_view Res Args) (args : Args) (m : Mem) :
  fn <> nullptr ->
  functions fn = Some f ->
  operator_call
    (function_view_from (function_pointer (same_signature functions) fn) uninit)
    args m
  = f args m.
Proof.
  intros Hfn Hf. rewrite operator_call_from. simpl.
  unfold call_through. simpl.
  destruct (N.eqb_spec fn nullptr) as [Heq|_]; [contradiction|].
  rewrite Hf. apply and_then_ret.
Qed.

Lemma view_of_function_is_direct_call_witness :
  operator_call samples.is_even_view 6 ∅ = scenarios.is_even 6 ∅.
Proof.
  apply (view_of_function_is_direct_call bool Z scenarios.functions 64%N
           scenarios.is_even function_view_default 6 ∅).
  - discriminate.
  - reflexivity.
Defined.


(** The [tally] at address 16 starts from 0: adding 2 through one view
    and 3 through its copy returns 2 and then 5, and the object itself
    holds 5. *)
Example tally_through_view_and_copy :
  operator_call samples.tally_view 2 samples.tally_memory
    = Some (2, {[16%N := 2]})
  /\ and_then (operator_call samples.tally_view 2 samples.tally_memory)
       (fun _ m1 =>
          operator_call (function_view_copy samples.tally_view) 3 m1)
     = Some (5, {[16%N := 5]}).
Proof. vm_compute. split; reflexivity. Qed.

(** C4, as the code has it: a [bind] assigns both members, whatever the
    view held before; copy assignment takes both members of the other
    view; assigning [nullptr] resets the invoker only and leaves the
    payload as it was. *)
Theorem mutation_of_members
    (Res Args : Type) (c : callable_ref Res Args)
    (this this' other : function_view Res Args) :
  bind c this = bind c this'
  /\ m_invoker (bind c this) <> None
  /\ assign_copy other this = other
  /\ assign_nullptr this
     = {| m_erased_callable := m_erased_callable this; m_invoker := None |}.
Proof.
  split; [apply bind_forgets|]. split.
  - rewrite bind_members. destruct c; discriminate.
  - split; [apply assign_copy_same | reflexivity].
Qed.

(** C4 as stated fails: after [v = nullptr] the view bound to the object
    at address 16 still holds that address, so it is not the pair a null
    view is made of. *)
Lemma assign_nullptr_keeps_payload :
  assign_nullptr samples.bump_view
    = {| m_erased_callable := fv_detail.of_data 16%N; m_invoker := None |}
  /\ assign_nullptr samples.bump_view <> function_view_nullptr.
Proof.
  split; [reflexivity|]. intros H.
  apply (f_equal m_erased_callable) in H. discriminate H.
Qed.

(** C5: a default-constructed view and one constructed from [nullptr]
    are empty; so is any view after [nullptr] is assigned to it; a view
    constructed from a function object or a function pointer is not. *)
Theorem emptiness_after_construction
    (Res Args : Type) (v uninit : function_view Res Args)
    (c : callable_ref Res Args) :
  operator_bool (@function_view_default Res Args) = false
  /\ operator_bool (@function_view_nullptr Res Args) = false
  /\ operator_bool (assign_nullptr v) = false
  /\ operator_bool (function_view_from c uninit) = true.
Proof.
  repeat split. apply operator_bool_bind.
Qed.

(** C6: both [==] comparisons with [nullptr] hold exactly when the view
    is empty, both [!=] comparisons exactly when it is not, and each
    [!=] is the negation of the [==] with the same operand order. *)
Theorem nullptr_comparisons
    (Res Args : Type) (f : function_view Res Args) :
  (eq_nullptr f = true <-> operator_bool f = false)
  /\ (nullptr_eq f = true <-> operator_bool f = false)
  /\ (ne_nullptr f = true <-> operator_bool f = true)
  /\ (nullptr_ne f = true <-> operator_bool f = true)
  /\ ne_nullptr f = negb (eq_nullptr f)
  /\ nullptr_ne f = negb (nullptr_eq f).
Proof.
  unfold eq_nullptr, nullptr_eq, ne_nullptr, nullptr_ne.
  destruct (operator_bool f); simpl; intuition congruence.
Qed.

(** C7: a view declared [bool (int)], constructed from the closure that
    captured [t = 5] and computes [x > t], returns false for 3, true for
    7 and false for 5, and leaves memory alone. *)
Theorem above_threshold_scenario
    (closure : ptr) (m : Mem) (uninit : function_view bool Z) :
  m !! closure = Some 5 ->
  operator_call
    (function_view_from (function_object scenarios.above closure) uninit) 3 m
    = Some (false, m)
  /\ operator_call
       (function_view_from (function_object scenarios.above closure) uninit)
       7 m
     = Some (true, m)
  /\ operator_call
       (function_view_from (function_object scenarios.above closure) uninit)
       5 m
     = Some (false, m).
Proof.
  intros Ht. rewrite !operator_call_from. simpl.
  unfold scenarios.above_operator. rewrite Ht. repeat split.
Qed.

Lemma above_threshold_scenario_witness :
  operator_call samples.above_view 3 samples.above_memory
    = Some (false, samples.above_memory)
  /\ operator_call samples.above_view 7 samples.above_memory
     = Some (true, samples.above_memory)
  /\ operator_call samples.above_view 5 samples.above_memory
     = Some (false, samples.above_memory).
Proof.
  apply (above_threshold_scenario 16%N samples.above_memory
           function_view_default).
  reflexivity.
Defined.

(** One call of [bump] adds one to the counter its member points to. *)
Lemma bump_operator_increments (this counter : N) (n : Z) (m : Mem) :
  m !! this = Some (Z.of_N counter) ->
  m !! counter = Some n ->
  n < INT_MAX ->
  scenarios.bump_operator this tt m = Some (tt, <[counter := n + 1]> m).
Proof.
  intros Hthis Hcounter Hn. unfold scenarios.bump_operator.
  rewrite Hthis, N2Z.id, Hcounter.
  destruct (Z.ltb_spec n INT_MAX); [reflexivity | lia].
Qed.

(** C8: a view declared [void ()], constructed from a function object
    that increments an external counter: each invocation adds one to the
    counter, and three invocations starting from 0 leave it at 3. *)
Theorem bump_three_times_scenario
    (object counter : N) (m : Mem) (uninit : function_view unit unit) :
  object <> counter ->
  m !! object = Some (Z.of_N counter) ->
  (forall n : Z,
     m !! counter = Some n -> n < INT_MAX ->
     operator_call
       (function_view_from (function_object scenarios.bump object) uninit)
       tt m
     = Some (tt, <[counter := n + 1]> m))
  /\ (m !! counter = Some 0 ->
      call_each
        (function_view_from (function_object scenarios.bump object) uninit)
        [tt; tt; tt] m
      = Some ([tt; tt; tt], <[counter := 3]> m)).
Proof.
  intros Hne Hobject.
  assert (Hstep : forall (n : Z) (m0 : Mem),
    m0 !! object = Some (Z.of_N counter) ->
    m0 !! counter = Some n -> n < INT_MAX ->
    operator_call
      (function_view_from (function_object scenarios.bump object) uninit)
      tt m0
    = Some (tt, <[counter := n + 1]> m0)).
  { intros n m0 Ho Hc Hn. rewrite operator_call_from. simpl.
    rewrite (bump_operator_increments object counter n m0 Ho Hc Hn).
    reflexivity. }
  split.
  - intros n Hc Hn. exact (Hstep n m Hobject Hc Hn).
  - intros Hzero. unfold call_each.
    rewrite (Hstep 0 m Hobject Hzero) by (unfold INT_MAX; lia). simpl.
    rewrite (Hstep 1 (<[counter := 1]> m)); simpl.
    + rewrite (Hstep 2 (<[counter := 2]> (<[counter := 1]> m))); simpl.
      * rewrite !insert_insert_eq. reflexivity.
      * rewrite !lookup_insert_ne by congruence. exact Hobject.
      * apply lookup_insert_eq.
      * unfold INT_MAX; lia.
    + rewrite lookup_insert_ne by congruence. exact Hobject.
    + apply lookup_insert_eq.
    + unfold INT_MAX; lia.
Qed.

Lemma bump_three_times_scenario_witness :
  call_each samples.bump_view [tt; tt; tt] samples.bump_memory
  = Some ([tt; tt; tt], <[32%N := 3]> samples.bump_memory).
Proof.
  apply (bump_three_times_scenario 16%N 32%N samples.bump_memory
           function_view_default).
  - discriminate.
  - reflexivity.
  - reflexivity.
Defined.

(** The counter of the sample memory reads 3 afterwards. *)
Example bump_counter_reads_three :
  and_then (call_each samples.bump_view [tt; tt; tt] samples.bump_memory)
    (fun _ m => Some (m !! 32%N, m))
  = Some (Some 3, <[32%N := 3]> samples.bump_memory).
Proof. vm_compute. reflexivity. Qed.

(** C9: emptiness is read off the invoker alone.  Assigning [nullptr]
    writes the invoker and leaves the payload as it was, and the view is
    empty afterwards; views with a null invoker are empty whatever their
    payloads hold; replacing the payload never changes the answer. *)
Theorem emptiness_is_the_invoker
    (Res Args : Type) (v : function_view Res Args)
    (e1 e2 : fv_detail.erased_callable) :
  m_erased_callable (assign_nullptr v) = m_erased_callable v
  /\ m_invoker (assign_nullptr v) = None
  /\ operator_bool (assign_nullptr v) = false
  /\ operator_bool
       ({| m_erased_callable := e1; m_invoker := None |}
          : function_view Res Args) = false
  /\ operator_bool
       ({| m_erased_callable := e2; m_invoker := None |}
          : function_view Res Args) = false
  /\ operator_bool (set_erased_callable e1 v) = operator_bool v.
Proof. repeat split. Qed.

(** The sample view, once cleared, is empty although its payload is
    still the address it was bound to. *)
Example cleared_view_is_empty :
  operator_bool (assign_nullptr samples.bump_view) = false
  /\ m_erased_callable (assign_nullptr samples.bump_view)
     = fv_detail.of_data 16%N.
Proof. split; reflexivity. Qed.


(** ** Calls of views that live in memory *)

Section InMemoryFacts.

Import in_memory.

Context {Res Args : Type}.

Variable text : fn_ptr -> option (invoker_code Res Args).

(** The call operator reads the members and passes control to the
    invoker; for a bound view that is the direct call. *)
Lemma operator_call_at_bound (c : callable Res Args) (this : ptr)
    (args : Args) (s : Store) :
  linked text c ->
  views s !! this = Some (bound_to c) ->
  operator_call_at text this args s = direct_call_at c args s.
Proof.
  intros Hlinked Hbound. unfold operator_call_at. rewrite Hbound.
  destruct c as [C p|F f]; simpl in *; destruct Hlinked as [Hnull Htext].
  - destruct (N.eqb_spec (class_lambda C) nullptr) as [Heq|_];
      [contradiction|].
    rewrite Htext. reflexivity.
  - destruct (N.eqb_spec (fun_lambda Res Args F) nullptr) as [Heq|_];
      [contradiction|].
    rewrite Htext. reflexivity.
Qed.

Lemma call_each_at_bound (c : callable Res Args) (this : ptr) :
  linked text c ->
  leaves_alone c this ->
  forall (l : list Args) (s : Store),
    views s !! this = Some (bound_to c) ->
    call_each_at text this l s = direct_each_at c l s
    /\ forall (rs : list Res) (s' : Store),
         call_each_at text this l s = Some (rs, s') ->
         views s' !! this = Some (bound_to c).
Proof.
  intros Hlinked Halone l.
  induction l as [|args l IH]; intros s Hbound; simpl.
  - split; [reflexivity|]. intros rs s' H. injection H as _ <-. exact Hbound.
  - rewrite (operator_call_at_bound c this args s Hlinked Hbound).
    destruct (direct_call_at c args s) as [[r s1]|] eqn:Hcall;
      [|split; [reflexivity | discriminate]].
    assert (Hbound1 : views s1 !! this = Some (bound_to c)).
    { rewrite (Halone args s r s1 Hcall). exact Hbound. }
    destruct (IH s1 Hbound1) as [Heach Hafter]. rewrite Heach. split.
    + reflexivity.
    + intros rs s' H. rewrite <- Heach in H.
      destruct (call_each_at text this l s1) as [[rs1 s2]|] eqn:Hrest;
        [|discriminate].
      injection H as _ <-. exact (Hafter rs1 s2 eq_refl).
Qed.

(** A call operator that acts on the words alone writes no view. *)
Lemma words_only_leaves_alone (C : Callable Res Args) (lambda : fn_ptr)
    (p this : ptr) :
  leaves_alone (object (words_only C lambda) p) this.
Proof.
  intros args s r s' Hcall. simpl in Hcall. unfold on_words in Hcall.
  destruct (call C p args (words s)) as [[r0 m']|]; [|discriminate].
  injection Hcall as _ <-. reflexivity.
Qed.

(** For such a class the view in memory behaves as the view held by
    value does on the words. *)
Lemma operator_call_at_words_only (C : Callable Res Args) (lambda : fn_ptr)
    (p this : ptr) (uninit : function_view Res Args) (args : Args)
    (s : Store) :
  linked text (object (words_only C lambda) p) ->
  views s !! this = Some (bound_to (object (words_only C lambda) p)) ->
  operator_call_at text this args s
  = on_words
      (operator_call (function_view_from (function_object C p) uninit)
         args (words s)) s.
Proof.
  intros Hlinked Hbound.
  rewrite (operator_call_at_bound _ this args s Hlinked Hbound).
  rewrite operator_call_from. simpl. unfold on_words.
  destruct (call C p args (words s)) as [[r m']|]; reflexivity.
Qed.

End InMemoryFacts.

(** C10, as the code has it: the call operator writes nothing itself.
    When the callable a view is bound to never writes the view, a call
    of the view is the direct call of the callable and leaves the
    view's payload and invoker as they were, and so after any number of
    calls, each of which reaches the same callable. *)
Theorem call_leaves_view_that_callable_leaves
    (Res Args : Type)
    (text : fn_ptr -> option (in_memory.invoker_code Res Args))
    (c : in_memory.callable Res Args) (this : ptr) :
  in_memory.linked text c ->
  in_memory.leaves_alone c this ->
  (forall (args : Args) (s : in_memory.Store),
     in_memory.views s !! this = Some (in_memory.bound_to c) ->
     in_memory.operator_call_at text this args s
       = in_memory.direct_call_at c args s
     /\ forall (r : Res) (s' : in_memory.Store),
          in_memory.operator_call_at text this args s = Some (r, s') ->
          in_memory.views s' !! this = Some (in_memory.bound_to c))
  /\ (forall (l : list Args) (s : in_memory.Store),
        in_memory.views s !! this = Some (in_memory.bound_to c) ->
        in_memory.call_each_at text this l s
          = in_memory.direct_each_at c l s
        /\ forall (rs : list Res) (s' : in_memory.Store),
             in_memory.call_each_at text this l s = Some (rs, s') ->
             in_memory.views s' !! this = Some (in_memory.bound_to c)).
Proof.
  intros Hlinked Halone. split.
  - intros args s Hbound.
    pose proof (operator_call_at_bound text c this args s Hlinked Hbound)
      as Hcall.
    split; [exact Hcall|].
    intros r s' Hreturn. rewrite Hcall in Hreturn.
    rewrite (Halone args s r s' Hreturn). exact Hbound.
  - intros l s Hbound.
    exact (call_each_at_bound text c this Hlinked Halone l s Hbound).
Qed.

(** The view at address 8 of the [bump] object at address 16, invoked
    three times, still holds the members it was bound with. *)
Lemma call_leaves_view_that_callable_leaves_witness :
  in_memory.call_each_at in_memory.bump_text 8%N [tt; tt; tt]
    in_memory.bump_store
  = in_memory.direct_each_at (in_memory.object in_memory.bump 16%N)
      [tt; tt; tt] in_memory.bump_store
  /\ forall (rs : list unit) (s' : in_memory.Store),
       in_memory.call_each_at in_memory.bump_text 8%N [tt; tt; tt]
         in_memory.bump_store = Some (rs, s') ->
       in_memory.views s' !! 8%N
       = Some (in_memory.bound_to (in_memory.object in_memory.bump 16%N)).
Proof.
  refine (proj2 (call_leaves_view_that_callable_leaves unit unit
                   in_memory.bump_text
                   (in_memory.object in_memory.bump 16%N) 8%N _ _)
            [tt; tt; tt] in_memory.bump_store _).
  - split; [discriminate | reflexivity].
  - exact (words_only_leaves_alone scenarios.bump 64%N 16%N 8%N).
  - reflexivity.
Defined.

(** The three calls return and leave the counter at 3. *)
Example bump_in_memory_three_times :
  in_memory.call_each_at in_memory.bump_text 8%N [tt; tt; tt]
    in_memory.bump_store
  = Some ([tt; tt; tt],
          {| in_memory.words := <[32%N := 3]> samples.bump_memory;
             in_memory.views := in_memory.views in_memory.bump_store |}).
Proof. vm_compute. reflexivity. Qed.

(** C10 as stated fails: a callable may hold the address of the view it
    is invoked through.  The view [v] at address 8 is constructed from
    the [clear] object at address 16, whose member points back to [v];
    [v] is not empty, the call [v ()] returns, and afterwards [v] holds a
    null invoker: its members are not what they were before the call. *)
Lemma call_of_view_can_change_it :
  in_memory.construct_at (in_memory.object in_memory.clear 16%N) 8%N
    {| in_memory.erased_callable_at := fv_detail.of_fn 5%N;
       in_memory.invoker_at := 7%N |}
    {| in_memory.words := {[16%N := 8]}; in_memory.views := ∅ |}
  = Some in_memory.clear_store
  /\ in_memory.operator_bool_at 8%N in_memory.clear_store = Some true
  /\ in_memory.operator_call_at in_memory.clear_text 8%N tt
       in_memory.clear_store
     = Some (tt,
             in_memory.write_view 8%N
               {| in_memory.erased_callable_at := fv_detail.of_data 16%N;
                  in_memory.invoker_at := nullptr |}
               in_memory.clear_store)
  /\ in_memory.views
       (in_memory.write_view 8%N
          {| in_memory.erased_callable_at := fv_detail.of_data 16%N;
             in_memory.invoker_at := nullptr |}
          in_memory.clear_store) !! 8%N
     <> in_memory.views in_memory.clear_store !! 8%N
  /\ in_memory.operator_bool_at 8%N
       (in_memory.write_view 8%N
          {| in_memory.erased_callable_at := fv_detail.of_data 16%N;
             in_memory.invoker_at := nullptr |}
          in_memory.clear_store)
     = Some false.
Proof.
  split; [vm_compute; reflexivity|].
  split; [reflexivity|].
  split; [vm_compute; reflexivity|].
  split; [|reflexivity].
  vm_compute. discriminate.
Qed.

(** ** Further properties of [traits::Or] *)

Section OrFacts.

Import traits.

Lemma or_else_false_r (a : option bool) : or_else a (Some false) = a.
Proof. destruct a as [[|]|]; reflexivity. Qed.

(** [Or] folds the short-circuit disjunction over its arguments, from
    the left. *)
Lemma Or_value_fold (Bs : list trait) :
  value (Or Bs) = fold_right or_else (Some false) (map value Bs).
Proof.
  induction Bs as [|B1 Bs IH]; [reflexivity|].
  destruct Bs as [|B2 Bs].
  - simpl. symmetry. apply or_else_false_r.
  - change (fold_right or_else (Some false) (map value (B1 :: B2 :: Bs)))
      with (or_else (value B1)
              (fold_right or_else (Some false) (map value (B2 :: Bs)))).
    rewrite <- IH.
    destruct (value B1) as [[|]|] eqn:H1.
    + apply Or_true_first; exact H1.
    + apply Or_false_first; exact H1.
    + apply Or_ill_formed_first; exact H1.
Qed.

Lemma CompatibleReturnType_value
    (type : Type) (is_void : type -> trait)
    (is_same is_convertible : type -> type -> trait) (From To : type) :
  value (CompatibleReturnType type is_void is_same is_convertible From To)
  = compatible_by_rule type is_void is_same is_convertible From To.
Proof.
  unfold CompatibleReturnType, compatible_by_rule.
  rewrite Or_value_fold. simpl. rewrite or_else_false_r. reflexivity.
Qed.

End OrFacts.

(** X1: over any number of predicates that all have a value, [Or] is
    their boolean disjunction. *)
Theorem Or_is_disjunction (Bs : list traits.trait) (bs : list bool) :
  map traits.value Bs = map Some bs ->
  traits.value (traits.Or Bs) = Some (existsb (fun b => b) bs).
Proof.
  intros Hvalues. rewrite Or_value_fold, Hvalues. clear Hvalues.
  induction bs as [|b bs IH]; [reflexivity|].
  simpl. rewrite IH. destruct b; reflexivity.
Qed.

Lemma Or_is_disjunction_witness :
  traits.value
    (traits.Or [traits.false_type; traits.false_type; traits.true_type;
                traits.false_type])
  = Some (existsb (fun b => b) [false; false; true; false]).
Proof.
  apply (Or_is_disjunction
           [traits.false_type; traits.false_type; traits.true_type;
            traits.false_type]
           [false; false; true; false]).
  reflexivity.
Defined.

(** X2: [Or] stops at the first predicate that is true: when those
    before it are false, the result is true whatever follows, be it
    predicates that cannot be instantiated. *)
Theorem Or_stops_at_first_true
    (before after : list traits.trait) (B : traits.trait) :
  Forall (fun P => traits.value P = Some false) before ->
  traits.value B = Some true ->
  traits.value (traits.Or (before ++ B :: after)) = Some true.
Proof.
  intros Hbefore HB. rewrite Or_value_fold.
  induction Hbefore as [|P before HP _ IH]; simpl.
  - rewrite HB. reflexivity.
  - rewrite HP. simpl. exact IH.
Qed.

Lemma Or_stops_at_first_true_witness :
  traits.value
    (traits.Or ([traits.false_type; traits.false_type]
                  ++ traits.true_type :: [traits.ill_formed; traits.ill_formed]))
  = Some true.
Proof.
  apply (Or_stops_at_first_true [traits.false_type; traits.false_type]
           [traits.ill_formed; traits.ill_formed] traits.true_type).
  - repeat constructor.
  - reflexivity.
Defined.

(** X3: [Or] is false exactly when every one of its predicates is
    false; in particular [Or<>] is false. *)
Theorem Or_false_iff_all_false (Bs : list traits.trait) :
  traits.value (traits.Or Bs) = Some false
  <-> Forall (fun P => traits.value P = Some false) Bs.
Proof.
  rewrite Or_value_fold. induction Bs as [|B Bs IH]; simpl.
  - split; [constructor | reflexivity].
  - split.
    + intros H. destruct (traits.value B) as [[|]|] eqn:HB;
        simpl in H; try discriminate H.
      constructor; [exact HB | apply IH; exact H].
    + intros H. inversion H as [|? ? HB Hrest]; subst.
      rewrite HB. simpl. apply IH. exact Hrest.
Qed.

Lemma Or_false_iff_all_false_witness :
  traits.value (traits.Or [traits.false_type; traits.Not traits.true_type])
  = Some false.
Proof.
  apply (proj2 (Or_false_iff_all_false
                  [traits.false_type; traits.Not traits.true_type])).
  repeat constructor.
Defined.

(** ** Properties of the converting constructor's conditions *)

Section AcceptanceFacts.

Import traits.

Lemma Requires_viable (Condition : trait) :
  Requires Condition = viable <-> value Condition = Some true.
Proof.
  unfold Requires. destruct (value Condition) as [[|]|];
    split; intros H; congruence.
Qed.

Lemma Requires_Not_viable (Condition : trait) :
  Requires (Not Condition) = viable <-> value Condition = Some false.
Proof.
  rewrite Requires_viable. unfold Not.
  destruct (value Condition) as [[|]|]; simpl; split; intros H; congruence.
Qed.

End AcceptanceFacts.

(** X4: the converting constructor is a candidate for [Callable] exactly
    when [Callable] is not the view type itself, can be called with
    [Args], and the result of that call passes the return-type rule. *)
Theorem converting_constructor_viable_iff
    (type : Type) (is_void : type -> traits.trait)
    (is_same is_convertible : type -> type -> traits.trait)
    (decay : type -> type) (result_of : type -> option type)
    (Self Res Callable : type) :
  converting_constructor type is_void is_same is_convertible decay result_of
    Self Res Callable = viable
  <-> traits.value (IsFunctionView type is_same decay Self Callable)
        = Some false
      /\ exists Res2 : type,
           result_of Callable = Some Res2
           /\ compatible_by_rule type is_void is_same is_convertible Res2 Res
              = Some true.
Proof.
  unfold converting_constructor, IsCompatibleCallable.
  split.
  - intros H.
    destruct (Requires (traits.Not (IsFunctionView type is_same decay Self Callable)))
      eqn:Hself; try discriminate H.
    apply Requires_Not_viable in Hself. split; [exact Hself|].
    destruct (result_of Callable) as [Res2|]; [|discriminate H].
    exists Res2. split; [reflexivity|].
    apply Requires_viable in H. rewrite <- CompatibleReturnType_value. exact H.
  - intros [Hself [Res2 [Hres Hrule]]].
    apply Requires_Not_viable in Hself. rewrite Hself, Hres.
    apply Requires_viable. rewrite CompatibleReturnType_value. exact Hrule.
Qed.

(** A closure that yields [int] is taken by a [function_view<bool (int)>]. *)
Lemma converting_constructor_viable_iff_witness :
  offers.constructor (offers.closure offers.int_t) = viable.
Proof.
  apply (proj2 (converting_constructor_viable_iff offers.type offers.is_void
                  offers.is_same offers.is_convertible offers.decay
                  offers.result_of offers.view offers.bool_t
                  (offers.closure offers.int_t))).
  split; [reflexivity|]. exists offers.int_t. split; reflexivity.
Defined.

(** X5: an argument whose decayed type is the view type itself is never
    taken by the converting constructor, whatever calling it would
    yield: it is left to the copy constructor. *)
Theorem view_argument_is_left_to_copy
    (type : Type) (is_void : type -> traits.trait)
    (is_same is_convertible : type -> type -> traits.trait)
    (decay : type -> type) (result_of : type -> option type)
    (Self Res Callable : type) :
  traits.value (is_same Self (decay Callable)) = Some true ->
  converting_constructor type is_void is_same is_convertible decay result_of
    Self Res Callable = removed.
Proof.
  intros Hself. unfold converting_constructor, IsFunctionView, Requires.
  unfold traits.Not. rewrite Hself. reflexivity.
Qed.

(** A [const function_view<bool (int)> &] can be called with an [int]
    and yields [bool], so the return-type rule alone would accept it;
    the constructor is removed all the same. *)
Lemma view_argument_is_left_to_copy_witness :
  offers.constructor offers.view_cref = removed
  /\ (exists Condition : traits.trait,
        IsCompatibleCallable offers.type offers.is_void offers.is_same
          offers.is_convertible offers.type offers.result_of offers.bool_t
          offers.view_cref = Some Condition
        /\ traits.value Condition = Some true).
Proof.
  split.
  - apply (view_argument_is_left_to_copy offers.type offers.is_void
             offers.is_same offers.is_convertible offers.decay
             offers.result_of offers.view offers.bool_t offers.view_cref).
    reflexivity.
  - eexists. split; reflexivity.
Defined.

(** X6: the converting constructor is removed for a type that is not the
    view type and either cannot be called with [Args], or yields a
    result that is not [Res], does not convert to [Res], while [Res] is
    not [void]. *)
Theorem incompatible_callable_is_removed
    (type : Type) (is_void : type -> traits.trait)
    (is_same is_convertible : type -> type -> traits.trait)
    (decay : type -> type) (result_of : type -> option type)
    (Self Res Callable : type) :
  traits.value (is_same Self (decay Callable)) = Some false ->
  (result_of Callable = None
   \/ exists Res2 : type,
        result_of Callable = Some Res2
        /\ traits.value (is_void Res) = Some false
        /\ traits.value (is_same Res2 Res) = Some false
        /\ traits.value (is_convertible Res2 Res) = Some false) ->
  converting_constructor type is_void is_same is_convertible decay result_of
    Self Res Callable = removed.
Proof.
  intros Hself Hbad. unfold converting_constructor, IsCompatibleCallable.
  assert (Hfirst :
    Requires (traits.Not (IsFunctionView type is_same decay Self Callable))
    = viable) by (apply Requires_Not_viable; exact Hself).
  rewrite Hfirst.
  destruct Hbad as [Hnone | [Res2 [Hres [Hv [Hs Hc]]]]].
  - rewrite Hnone. reflexivity.
  - rewrite Hres. unfold Requires. rewrite CompatibleReturnType_value.
    unfold compatible_by_rule, or_else. rewrite Hv, Hs, Hc. reflexivity.
Qed.

Lemma incompatible_callable_is_removed_witness :
  offers.constructor offers.plain_struct = removed
  /\ offers.constructor (offers.closure offers.record) = removed.
Proof.
  split.
  - apply (incompatible_callable_is_removed offers.type offers.is_void
             offers.is_same offers.is_convertible offers.decay
             offers.result_of offers.view offers.bool_t offers.plain_struct).
    + reflexivity.
    + left. reflexivity.
  - apply (incompatible_callable_is_removed offers.type offers.is_void
             offers.is_same offers.is_convertible offers.decay
             offers.result_of offers.view offers.bool_t
             (offers.closure offers.record)).
    + reflexivity.
    + right. exists offers.record. repeat split.
Defined.

(** ** Further properties of the class *)

Section MoreViewFacts.

Context {Res Args : Type}.

Implicit Types (v this other : function_view Res Args).
Implicit Types (c : callable_ref Res Args) (m : Mem).

Lemma operator_call_empty v (args : Args) m :
  operator_bool v = false -> operator_call v args m = None.
Proof.
  unfold operator_bool, operator_call.
  destruct (m_invoker v); [discriminate | reflexivity].
Qed.

(** One member call keeps the members paired. *)
Lemma perform_well_paired (o : operation Res Args) v m v' m' (r : option Res) :
  well_paired v -> from_well_paired o ->
  perform o v m = Some (v', m', r) -> well_paired v'.
Proof.
  intros Hv Ho Hperform. destruct o as [args| |other]; simpl in *.
  - destruct (operator_call v args m) as [[r0 m0]|]; [|discriminate].
    injection Hperform as <- _ _. exact Hv.
  - injection Hperform as <- _ _.
    exact (paired_empty (m_erased_callable v)).
  - injection Hperform as <- _ _. rewrite assign_copy_same. exact Ho.
Qed.

End MoreViewFacts.

(** X7: invoking an empty view is undefined: there is no check and no
    fallback, whatever the payload holds. *)
Theorem empty_view_call_is_undefined
    (Res Args : Type) (v : function_view Res Args) (args : Args) (m : Mem) :
  operator_bool v = false ->
  operator_call v args m = None /\ perform (op_call args) v m = None.
Proof.
  intros Hempty. simpl.
  rewrite (operator_call_empty v args m Hempty). split; reflexivity.
Qed.

Lemma empty_view_call_is_undefined_witness :
  operator_call (assign_nullptr samples.bump_view) tt samples.bump_memory = None
  /\ perform (op_call tt) (assign_nullptr samples.bump_view)
       samples.bump_memory = None.
Proof.
  apply (empty_view_call_is_undefined unit unit
           (assign_nullptr samples.bump_view) tt samples.bump_memory).
  reflexivity.
Defined.

(** X8: a view constructed from a null function pointer is not empty,
    yet every call of it is undefined: [bind] installs its invoker
    without looking at the pointer. *)
Theorem null_function_pointer_view
    (Res Args : Type) (F : Function Res Args)
    (uninit : function_view Res Args) (args : Args) (m : Mem) :
  operator_bool (function_view_from (function_pointer F nullptr) uninit) = true
  /\ ne_nullptr (function_view_from (function_pointer F nullptr) uninit) = true
  /\ operator_call (function_view_from (function_pointer F nullptr) uninit)
       args m = None.
Proof. repeat split. Qed.

(** X9: a view constructed from a function whose parameter and result
    types differ from the declared ones passes the converted arguments
    to the function and returns its result converted to [Res], with the
    memory the function leaves. *)
Theorem view_of_function_converts
    (Res Args : Type) (F : Function Res Args) (fn : fn_ptr)
    (f : Args2 F -> Mem -> outcome (Res2 F))
    (uninit : function_view Res Args) (args : Args) (m : Mem) :
  fn <> nullptr ->
  text F fn = Some f ->
  operator_call (function_view_from (function_pointer F fn) uninit) args m
  = and_then (f (forward F args) m) (fun r m' => Some (cast_Res2 F r, m')).
Proof.
  intros Hfn Hf. rewrite operator_call_from. simpl. unfold call_through.
  destruct (N.eqb_spec fn nullptr) as [Heq|_]; [contradiction|].
  rewrite Hf. reflexivity.
Qed.

Lemma view_of_function_converts_witness :
  operator_call conversions.sign_view (-4) ∅
  = and_then (conversions.sign (-4) ∅)
      (fun r m' => Some (negb (Z.eqb r 0), m')).
Proof.
  apply (view_of_function_converts bool Z conversions.int_of_long 96%N
           conversions.sign function_view_default (-4) ∅).
  - discriminate.
  - reflexivity.
Defined.

(** The view of [sign] answers true for -4 and false for 0. *)
Example sign_view_answers :
  operator_call conversions.sign_view (-4) ∅ = Some (true, ∅)
  /\ operator_call conversions.sign_view 0 ∅ = Some (false, ∅).
Proof. split; reflexivity. Qed.

(** X10: after copy assignment from a view of another callable, calls
    reach that callable; nothing of the view's earlier target is left,
    whatever the view was before. *)
Theorem rebinding_replaces_target
    (Res Args : Type) (c2 : callable_ref Res Args)
    (this uninit : function_view Res Args) (args : Args) (m : Mem) :
  operator_call (assign_copy (function_view_from c2 uninit) this) args m
  = direct_call c2 args m
  /\ operator_call
       (assign_copy (function_view_from c2 uninit) (assign_nullptr this))
       args m
     = direct_call c2 args m.
Proof.
  rewrite !assign_copy_same, operator_call_from. split; reflexivity.
Qed.

(** A view of the closure [above], assigned to a variable that held a
    view of [is_even], answers 7 as [above] does. *)
Example rebound_view_calls_new_target :
  operator_call samples.is_even_view 7 samples.above_memory
    = Some (false, samples.above_memory)
  /\ operator_call (assign_copy samples.above_view samples.is_even_view)
       7 samples.above_memory
     = Some (true, samples.above_memory).
Proof. split; reflexivity. Qed.



(** X14: the invoker depends on the type of the callable only.  Views of
    two objects of one class hold the same invoker and differ in the
    payload alone, so storing the other object's address in the payload
    gives the view of the other object; likewise for two functions of
    one type. *)
Theorem invoker_is_per_type
    (Res Args : Type) (C : Callable Res Args) (F : Function Res Args)
    (p q : ptr) (f g : fn_ptr) (uninit uninit' : function_view Res Args) :
  m_invoker (function_view_from (function_object C p) uninit)
    = m_invoker (function_view_from (function_object C q) uninit')
  /\ set_erased_callable (fv_detail.of_data q)
       (function_view_from (function_object C p) uninit)
     = function_view_from (function_object C q) uninit'
  /\ m_invoker (function_view_from (function_pointer F f) uninit)
     = m_invoker (function_view_from (function_pointer F g) uninit')
  /\ set_erased_callable (fv_detail.of_fn g)
       (function_view_from (function_pointer F f) uninit)
     = function_view_from (function_pointer F g) uninit'.
Proof.
  unfold function_view_from. rewrite !bind_members. repeat split.
Qed.
